(** * xpath-builder: a shallow embedding of the XPath expression builder

    The Python package builds XPath text out of immutable wrappers around
    [str].  Every builder method is a pure function from strings to
    strings, so the embedding is direct: Python [str] is [string], a
    frozen dataclass is a [Record], a method is a function taking the
    receiver first, and a [raise] is the [Raise] branch of [result].

    Strings are sequences of 8-bit characters.  The two quote characters,
    the separators and every piece of XPath syntax the builder emits are
    ASCII, so reading a [string] as the UTF-8 text of a Python [str] keeps
    [in], [split], [join] and concatenation exactly as Python has them.
    The builtins whose meaning lies outside the repository ([str.lower],
    [str] of a float, the optional validation engines) are section
    variables. *)

From Stdlib Require Import Bool List Ascii String ZArith Lia.
From Stdlib Require Import Floats.SpecFloat.
From Stdlib Require Import DecimalString.
Import ListNotations.
Open Scope string_scope.

(** ** Python builtins used by the package *)

Module py.

(** The double-quote character, code 34, and the apostrophe, code 39. *)
Definition dquote : ascii := "034"%char.
Definition squote : ascii := "039"%char.

Definition DQ : string := String dquote EmptyString.
Definition SQ : string := String squote EmptyString.

(** [c in s] for a one-character needle [c]. *)
Fixpoint char_in (c : ascii) (s : string) : bool :=
  match s with
  | EmptyString => false
  | String a r => if Ascii.eqb a c then true else char_in c r
  end.

(** [s.split(c)] for a one-character separator: the pieces between the
    occurrences of [c], empty pieces kept, never the empty list. *)
Fixpoint split (c : ascii) (s : string) : list string :=
  match s with
  | EmptyString => [EmptyString]
  | String a r =>
      if Ascii.eqb a c then EmptyString :: split c r
      else match split c r with
           | piece :: rest => String a piece :: rest
           | [] => [String a EmptyString]
           end
  end.

(** [sep.join(parts)]. *)
Fixpoint join (sep : string) (parts : list string) : string :=
  match parts with
  | [] => EmptyString
  | [x] => x
  | x :: rest => x ++ sep ++ join sep rest
  end.

(** Truthiness of a [str]: the empty string is false. *)
Definition truthy (s : string) : bool :=
  match s with
  | EmptyString => false
  | String _ _ => true
  end.

(** Exceptions the package raises, with their message. *)
Inductive exn : Type :=
| ValueError (msg : string)
| SyntaxError (msg : string).

(** Outcome of a call that may raise. *)
Inductive result (A : Type) : Type :=
| Return (a : A)
| Raise (e : exn).

Arguments Return {A} a.
Arguments Raise {A} e.

Definition raises {A : Type} (r : result A) : bool :=
  match r with
  | Return _ => false
  | Raise _ => true
  end.

(** Sequencing of calls that may raise: the first raise ends the
    evaluation. *)
Definition bind {A B : Type} (r : result A) (k : A -> result B) : result B :=
  match r with
  | Return a => k a
  | Raise e => Raise e
  end.


End py.

Import py.

(** ** xpath_builder/utils.py *)

Module utils.

(** The optional engines found at import time.  An engine is a function
    from the expression to [None] when it accepts it and to [Some msg]
    when it throws an exception whose text is [msg]; a field is [None]
    when the import failed, which leaves the module flag [False]. *)
Record Engines : Type := mkEngines {
  elementpath : option (string -> option string);
  lxml : option (string -> option string)
}.

Definition _elementpath_available (env : Engines) : bool :=
  match elementpath env with Some _ => true | None => false end.

Definition _lxml_available (env : Engines) : bool :=
  match lxml env with Some _ => true | None => false end.

Definition validate_xpath (env : Engines) (expr : string) : result unit :=
  match elementpath env with
  | Some parse =>
      match parse expr with
      | None => Return tt
      | Some e => Raise (SyntaxError ("XPath (elementpath) syntax error: " ++ e))
      end
  | None =>
      match lxml env with
      | Some _XPath =>
          match _XPath expr with
          | None => Return tt
          | Some e => Raise (SyntaxError ("XPath (lxml) syntax error: " ++ e))
          end
      | None => Return tt
      end
  end.

(** Quote as XPath literal; uses concat() if both quote types appear. *)
Definition quote (s : string) : string :=
  if negb (char_in squote s) then SQ ++ s ++ SQ
  else if negb (char_in dquote s) then DQ ++ s ++ DQ
  else
    let parts := map (fun chunk => DQ ++ chunk ++ DQ) (split squote s) in
    let glued := join ("," ++ SQ ++ DQ ++ SQ ++ ",") parts in
    "concat(" ++ glued ++ ")".

(** Escape for XML Schema regex. *)
Definition specials : string := ".^$|?*+()[]{}\-\\".

Fixpoint re_escape_xsd (lit : string) : string :=
  match lit with
  | EmptyString => EmptyString
  | String ch r =>
      if char_in ch specials then String "\" (String ch (re_escape_xsd r))
      else String ch (re_escape_xsd r)
  end.

End utils.

Import utils.

(** ** xpath_builder/core.py *)

Module core.

(** The three wrappers.  [Pred], [Path] and [Node] each hold one string;
    Python resolves the mutual references between the classes at call
    time, so the records come first here. *)
Record Pred : Type := mkPred { Pred_expr : string }.
Record Path : Type := mkPath { Path_expr : string }.
Record Node : Type := mkNode { Node_test : string }.

Definition Pred_compile (self : Pred) : string := Pred_expr self.

Definition Pred_and (self other : Pred) : Pred :=
  mkPred ("(" ++ Pred_expr self ++ ") and (" ++ Pred_expr other ++ ")").

Definition Pred_or (self other : Pred) : Pred :=
  mkPred ("(" ++ Pred_expr self ++ ") or (" ++ Pred_expr other ++ ")").

Definition Pred_neg (self : Pred) : Pred :=
  mkPred ("not(" ++ Pred_expr self ++ ")").

Definition Pred_union (preds : list Pred) : Pred :=
  match preds with
  | [] => mkPred "false()"
  | _ => mkPred (join " or " (map (fun p => "(" ++ Pred_compile p ++ ")") preds))
  end.

(** *** Ops: generic comparator builder for an XPath left-hand side *)

Record Ops (T : Type) : Type := mkOps {
  lhs : string;
  to_lit : T -> string
}.

Arguments mkOps {T} lhs to_lit.
Arguments lhs {T} _.
Arguments to_lit {T} _ _.

(** The set literal tested by [cmp]. *)
Definition comparators : list string := ["="; "!="; "<"; "<="; ">"; ">="].

Definition Ops_cmp {T : Type} (self : Ops T) (op : string) (value : T) : result Pred :=
  if negb (existsb (String.eqb op) comparators)
  then Raise (ValueError "Invalid comparator")
  else Return (mkPred (lhs self ++ " " ++ op ++ " " ++ to_lit self value)).

Definition Ops_eq {T : Type} (self : Ops T) (value : T) : result Pred :=
  Ops_cmp self "=" value.

Definition Ops_ne {T : Type} (self : Ops T) (value : T) : result Pred :=
  Ops_cmp self "!=" value.

Definition Ops_lt {T : Type} (self : Ops T) (value : T) : result Pred :=
  Ops_cmp self "<" value.

Definition Ops_le {T : Type} (self : Ops T) (value : T) : result Pred :=
  Ops_cmp self "<=" value.

Definition Ops_gt {T : Type} (self : Ops T) (value : T) : result Pred :=
  Ops_cmp self ">" value.

Definition Ops_ge {T : Type} (self : Ops T) (value : T) : result Pred :=
  Ops_cmp self ">=" value.

Definition Ops_between {T : Type} (self : Ops T) (lo hi : T)
    (inclusive : bool * bool) : Pred :=
  let lop := if fst inclusive then ">=" else ">" in
  let hip := if snd inclusive then "<=" else "<" in
  mkPred ("(" ++ lhs self ++ " " ++ lop ++ " " ++ to_lit self lo ++ ") and ("
          ++ lhs self ++ " " ++ hip ++ " " ++ to_lit self hi ++ ")").

Definition Ops_in_ {T : Type} (self : Ops T) (values : list T) : Pred :=
  match values with
  | [] => mkPred "false()"
  | _ => let seq := "(" ++ join ", " (map (to_lit self) values) ++ ")" in
         mkPred (lhs self ++ " = " ++ seq)
  end.

Definition Ops_not_in {T : Type} (self : Ops T) (values : list T) : Pred :=
  Pred_neg (Ops_in_ self values).


(** *** _SetBuilder: any_of / all_of / none_of over a per-token factory *)

Record _SetBuilder : Type := mkSetBuilder { make_one : string -> string }.

Definition any_of (self : _SetBuilder) (tokens : list string) : Pred :=
  match tokens with
  | [] => mkPred "false()"
  | _ => let parts := map (make_one self) tokens in
         mkPred (join " or " parts)
  end.

Definition all_of (self : _SetBuilder) (tokens : list string) : Pred :=
  match tokens with
  | [] => mkPred "true()"
  | _ => let parts := map (make_one self) tokens in
         mkPred (join " and " parts)
  end.

Definition none_of (self : _SetBuilder) (tokens : list string) : Pred :=
  match tokens with
  | [] => mkPred "true()"
  | _ => Pred_neg (any_of self tokens)
  end.

Definition _seq_literal_strs (items : list string) : string :=
  "(" ++ join ", " (map quote items) ++ ")".

Record _AttrNameOps : Type := mkAttrNameOps { AttrNameOps_ci : bool }.

Record _AttrOps : Type := mkAttrOps {
  AttrOps_name : string;
  AttrOps_ci : bool
}.

(** [float("inf")] and [float("-inf")]. *)
Definition float_inf : spec_float := S754_infinity false.
Definition float_neg_inf : spec_float := S754_infinity true.

Section Builtins.

(** [str.lower]. *)
Variable lower : string -> string.

(** [str] of a float. *)
Variable float_str : spec_float -> string.

Definition attr_str (name : string) (ci : bool) : Ops string :=
  let lhs := if ci then "lower-case(@" ++ name ++ ")" else "@" ++ name in
  let to_lit := fun v : string => quote (if ci then lower v else v) in
  mkOps lhs to_lit.

(** Numeric compare on attribute by casting: number(@name). *)
Definition attr_num (name : string) : Ops spec_float :=
  let lhs := "number(@" ++ name ++ ")" in
  let to_lit := fun v : spec_float =>
    if negb (SFeqb v v) then "NaN"
    else if SFeqb v float_inf then "Infinity"
    else if SFeqb v float_neg_inf then "-Infinity"
    else float_str v in
  mkOps lhs to_lit.

Definition bool_expr (expr : string) : Ops bool :=
  mkOps expr (fun v : bool => if v then "true()" else "false()").

Definition string_value (ci : bool) : Ops string :=
  let lhs := if ci then "lower-case(string(.))" else "string(.)" in
  mkOps lhs (fun v : string => quote (if ci then lower v else v)).

(** *** _AttrNameOps: attr('*').has_name.{contains|equals|...} *)

Definition AttrNameOps__lname (self : _AttrNameOps) (var : string) : string :=
  if AttrNameOps_ci self then "lower-case(local-name(" ++ var ++ "))"
  else "local-name(" ++ var ++ ")".

Definition AttrNameOps_contains (self : _AttrNameOps) : _SetBuilder :=
  mkSetBuilder (fun substr =>
    let x := AttrNameOps__lname self "$a" in
    let needle := if AttrNameOps_ci self then lower substr else substr in
    "some $a in @* satisfies contains(" ++ x ++ ", " ++ quote needle ++ ")").

Definition AttrNameOps_equals (self : _AttrNameOps) : _SetBuilder :=
  mkSetBuilder (fun name =>
    let x := AttrNameOps__lname self "$a" in
    let target := if AttrNameOps_ci self then lower name else name in
    "some $a in @* satisfies " ++ x ++ " = " ++ quote target).

Definition AttrNameOps_any_of (self : _AttrNameOps) (names : list string) : Pred :=
  any_of (AttrNameOps_equals self) names.

Definition AttrNameOps_all_of (self : _AttrNameOps) (names : list string) : Pred :=
  match names with
  | [] => mkPred "true()"
  | _ =>
      let seq := _seq_literal_strs
                   (map (fun n => if AttrNameOps_ci self then lower n else n) names) in
      let x := if AttrNameOps_ci self then "lower-case(local-name($a))"
               else "local-name($a)" in
      mkPred ("every $n in " ++ seq ++ " satisfies some $a in @* satisfies "
              ++ x ++ " = $n")
  end.

Definition AttrNameOps_none_of (self : _AttrNameOps) (names : list string) : Pred :=
  match names with
  | [] => mkPred "true()"
  | _ => Pred_neg (AttrNameOps_any_of self names)
  end.

Definition AttrNameOps_startswith (self : _AttrNameOps) : _SetBuilder :=
  mkSetBuilder (fun prefix =>
    let x := AttrNameOps__lname self "$a" in
    "some $a in @* satisfies starts-with(" ++ x ++ ", "
    ++ quote (if AttrNameOps_ci self then lower prefix else prefix) ++ ")").

Definition AttrNameOps_endswith (self : _AttrNameOps) : _SetBuilder :=
  mkSetBuilder (fun suffix =>
    let x := AttrNameOps__lname self "$a" in
    "some $a in @* satisfies ends-with(" ++ x ++ ", "
    ++ quote (if AttrNameOps_ci self then lower suffix else suffix) ++ ")").

Definition AttrNameOps_matches (self : _AttrNameOps) (flags : string) : _SetBuilder :=
  let fl := if truthy flags then ", " ++ quote flags else EmptyString in
  mkSetBuilder (fun pattern =>
    let lhs := if AttrNameOps_ci self then "lower-case(local-name($a))"
               else "local-name($a)" in
    "some $a in @* satisfies matches(" ++ lhs ++ ", " ++ quote pattern ++ fl ++ ")").

(** *** _AttrOps: Pred.attr(name, ci=...).op.set_op(...) *)

Definition AttrOps_contains (self : _AttrOps) : _SetBuilder :=
  let base := if AttrOps_ci self then "lower-case(@" ++ AttrOps_name self ++ ")"
              else "@" ++ AttrOps_name self in
  mkSetBuilder (fun tok =>
    let needle := if AttrOps_ci self then lower tok else tok in
    "contains(" ++ base ++ ", " ++ quote needle ++ ")").

Definition AttrOps_contains_tokens (self : _AttrOps) : _SetBuilder :=
  let src := "concat(' ', normalize-space(@" ++ AttrOps_name self ++ "), ' ')" in
  let flags := if AttrOps_ci self then ", 'i'" else EmptyString in
  mkSetBuilder (fun tok =>
    let pat := "\s" ++ re_escape_xsd tok ++ "\s" in
    "matches(" ++ src ++ ", " ++ quote pat ++ flags ++ ")").

Definition AttrOps_none_of (self : _AttrOps) (tokens : list string) : Pred :=
  none_of (AttrOps_contains_tokens self) tokens.

Definition AttrOps_startswith (self : _AttrOps) : _SetBuilder :=
  let left := if AttrOps_ci self then "lower-case(@" ++ AttrOps_name self ++ ")"
              else "@" ++ AttrOps_name self in
  mkSetBuilder (fun prefix =>
    let right := quote (if AttrOps_ci self then lower prefix else prefix) in
    "starts-with(" ++ left ++ ", " ++ right ++ ")").

Definition AttrOps_endswith (self : _AttrOps) : _SetBuilder :=
  let left := if AttrOps_ci self then "lower-case(@" ++ AttrOps_name self ++ ")"
              else "@" ++ AttrOps_name self in
  mkSetBuilder (fun suffix =>
    let right := quote (if AttrOps_ci self then lower suffix else suffix) in
    "ends-with(" ++ left ++ ", " ++ right ++ ")").

(** Attribute NAME matching across the element's attributes.
    Only meaningful if the name is the wildcard. *)
Definition AttrOps_has_name (self : _AttrOps) : result _AttrNameOps :=
  if negb (String.eqb (AttrOps_name self) "*")
  then Raise (ValueError "attr(name).has_name is only meaningful for attr('*')")
  else Return (mkAttrNameOps (AttrOps_ci self)).

Definition AttrOps_matches (self : _AttrOps) (flags : string) : _SetBuilder :=
  let fl := if truthy flags then ", " ++ quote flags else EmptyString in
  mkSetBuilder (fun pattern =>
    "matches(@" ++ AttrOps_name self ++ ", " ++ quote pattern ++ fl ++ ")").

Definition AttrOps_missing (self : _AttrOps) : Pred :=
  mkPred ("not(@" ++ AttrOps_name self ++ ")").

Definition AttrOps_exists (self : _AttrOps) : Pred :=
  mkPred ("@" ++ AttrOps_name self).

Definition AttrOps_as_str (self : _AttrOps) : Ops string :=
  attr_str (AttrOps_name self) (AttrOps_ci self).

Definition AttrOps_as_num (self : _AttrOps) : Ops spec_float :=
  attr_num (AttrOps_name self).

End Builtins.

(** Static constructor [Pred.attr]. *)
Definition Pred_attr (name : string) (case_insensitive : bool) : _AttrOps :=
  mkAttrOps name case_insensitive.

(** Static constructor [Pred.attr_has_token]: exact token match in
    space-separated lists. *)
Definition Pred_attr_has_token (attr token : string) (case_insensitive : bool) : Pred :=
  let src := "concat(' ', normalize-space(@" ++ attr ++ "), ' ')" in
  let pat := "\s" ++ token ++ "\s" in
  let flags := if case_insensitive then "i" else EmptyString in
  mkPred ("matches(" ++ src ++ ", " ++ quote pat
          ++ (if truthy flags then ", " ++ quote flags else EmptyString) ++ ")").

(** *** Path / Node DSL *)

Definition Path_compile (self : Path) : string := Path_expr self.

Definition Node_compile (self : Node) : string := Node_test self.

Definition Path_neg (self : Path) : Pred :=
  mkPred ("not(" ++ Path_expr self ++ ")").

Definition Path_where (self : Path) (pred : Pred) : Path :=
  mkPath (Path_expr self ++ "[" ++ Pred_compile pred ++ "]").

Definition Path_child (self : Path) (node : Node) : Path :=
  mkPath (Path_expr self ++ "/" ++ Node_compile node).

Definition Path_desc (self : Path) (node : Node) : Path :=
  mkPath (Path_expr self ++ "//" ++ Node_compile node).

Definition Path_curr_desc (self : Path) : Path :=
  mkPath (".//" ++ Path_expr self).



Definition Path_validate (env : Engines) (self : Path) : result unit :=
  validate_xpath env (Path_expr self).

Definition Path_union (paths : list Path) : Path :=
  match paths with
  | [] => mkPath "false()"
  | _ => mkPath (join " | " (map (fun p => "(" ++ Path_compile p ++ ")") paths))
  end.

(** [Node.__or__]: union with another node test. *)
Definition Node_or (self other : Node) : Path :=
  mkPath (Node_test self ++ " | " ++ Node_test other).

Definition Node_any (self : Node) : Path :=
  mkPath ("//" ++ Node_test self).

Definition Node_root (self : Node) : Path :=
  mkPath ("/" ++ Node_test self).

Definition Node_where (self : Node) (pred : Pred) : Path :=
  Path_where (mkPath (Node_test self)) pred.

Definition Node_child (self other : Node) : Path :=
  Path_child (mkPath (Node_test self)) other.

Definition Node_desc (self other : Node) : Path :=
  Path_desc (mkPath (Node_test self)) other.

Definition Node_curr_desc (self : Node) : Path :=
  Path_curr_desc (mkPath (Node_test self)).

End core.

Import core.

(** ** xpath_builder/shortcuts.py *)

Module shortcuts.

Definition E (tag : string) : Node := mkNode tag.

Definition ATTR (name : string) : Node := mkNode ("@" ++ name).

Definition COMMENT : Node := mkNode "comment()".
Definition TEXT : Node := mkNode "text()".
Definition NODE : Node := mkNode "node()".
Definition STAR : Node := mkNode "*".

End shortcuts.

Import shortcuts.

(** ** examples/find_ad_classes.py *)

Module find_ad_classes.

Section Builtins.

Variable lower : string -> string.

Definition ad_class_selector : Path :=
  Path_where (Node_any STAR)
    (any_of (AttrOps_contains lower (Pred_attr "class" false))
       [ "ads";
         "ad";
         "advert";
         "advertisement";
         "sponsored";
         "promo";
         "affiliate";
         "tracking";
         "analytics" ]).

End Builtins.

End find_ad_classes.

Import find_ad_classes.

(** ** examples/find_empty_svgs.py *)

Module find_empty_svgs.

Section Builtins.

Variable lower : string -> string.

Definition empty_svg_selector : result Path :=
  bind (Ops_eq (AttrOps_as_str lower (Pred_attr "width" false)) "0") (fun w =>
  bind (Ops_eq (AttrOps_as_str lower (Pred_attr "height" false)) "0") (fun h =>
  bind (Ops_eq (AttrOps_as_str lower (Pred_attr "aria-hidden" false)) "true") (fun a =>
  Return
    (Path_where (Node_any (E "svg"))
       (Pred_or (Pred_or (Pred_or w h) a)
          (AttrOps_missing (Pred_attr "role" false))))))).

End Builtins.

End find_empty_svgs.

Import find_empty_svgs.

(** ** examples/find_id_str.py *)

Module find_id_str.

Section Builtins.

Variable lower : string -> string.

Definition id_str_selector : Path :=
  Path_where (Node_any STAR)
    (any_of (AttrOps_startswith lower (Pred_attr "id" false))
       [ "vue-";
         "angular-";
         "svelte-";
         "lit-";
         "astro-";
         "preact-";
         "solid-" ]).

End Builtins.

End find_id_str.

Import find_id_str.

(** ** Reference definitions used by the statements *)

Module reference.

(** The quoting rule as the specification words it: wrap in single
    quotes when there is no single quote, else in double quotes when
    there is no double quote, else split on the single quote, wrap each
    piece in double quotes and join the pieces inside concat(...) with a
    double-quoted apostrophe between them. *)
Definition quote_spec (s : string) : string :=
  if negb (char_in squote s) then SQ ++ s ++ SQ
  else if negb (char_in dquote s) then DQ ++ s ++ DQ
  else
    let pieces := map (fun chunk => DQ ++ chunk ++ DQ) (split squote s) in
    "concat(" ++ join ("," ++ DQ ++ SQ ++ DQ ++ ",") pieces ++ ")".

(** The keyword list of the ad-classification selector. *)
Definition ad_keywords : list string :=
  ["ads"; "ad"; "advert"; "advertisement"; "sponsored"; "promo";
   "affiliate"; "tracking"; "analytics"].

(** Number of positions of [s] at which [needle] starts. *)
Fixpoint count_substr (needle s : string) : nat :=
  match s with
  | EmptyString => if String.prefix needle EmptyString then 1 else 0
  | String _ r =>
      (if String.prefix needle s then 1 else 0) + count_substr needle r
  end.

(** [s] holds none of the characters that [re_escape_xsd] escapes. *)
Fixpoint no_specials (s : string) : bool :=
  match s with
  | EmptyString => true
  | String ch r => negb (char_in ch specials) && no_specials r
  end.

(** Number of characters of [s] that [re_escape_xsd] escapes. *)
Fixpoint count_specials (s : string) : nat :=
  match s with
  | EmptyString => 0
  | String ch r => (if char_in ch specials then 1 else 0) + count_specials r
  end.

(** Reading of an escaped literal: a backslash stands for the character
    that follows it. *)
Fixpoint unescape (s : string) : string :=
  match s with
  | EmptyString => EmptyString
  | String ch r =>
      if Ascii.eqb ch "\"
      then match r with
           | EmptyString => String ch EmptyString
           | String c r' => String c (unescape r')
           end
      else String ch (unescape r)
  end.

(** The text between the outer double quotes of the concat arguments of
    [quote]: every apostrophe of [s] replaced by the seven characters
    that close a chunk, insert the glue literal and open the next
    chunk. *)
Fixpoint glue_apostrophes (s : string) : string :=
  match s with
  | EmptyString => EmptyString
  | String ch r =>
      if Ascii.eqb ch squote
      then DQ ++ "," ++ SQ ++ DQ ++ SQ ++ "," ++ DQ ++ glue_apostrophes r
      else String ch (glue_apostrophes r)
  end.

(** Nesting depth after reading [s] from depth [d]; [None] when a closing
    parenthesis has no opening one. *)
Fixpoint paren_depth (d : nat) (s : string) : option nat :=
  match s with
  | EmptyString => Some d
  | String ch r =>
      if Ascii.eqb ch "("
      then paren_depth (S d) r
      else if Ascii.eqb ch ")"
           then match d with
                | O => None
                | S d' => paren_depth d' r
                end
           else paren_depth d r
  end.

(** Every parenthesis of [s] has its partner. *)
Definition balanced (s : string) : Prop := paren_depth 0 s = Some 0.

(** The prefixes of the framework-id selector. *)
Definition id_prefixes : list string :=
  ["vue-"; "angular-"; "svelte-"; "lit-"; "astro-"; "preact-"; "solid-"].

End reference.

Import reference.

(** * Properties *)

(** ** Strings: join and split *)

Lemma join_cons_cons (sep x y : string) (rest : list string) :
  join sep (x :: y :: rest) = x ++ sep ++ join sep (y :: rest).
Proof. reflexivity. Qed.

Lemma join_singleton (sep x : string) : join sep [x] = x.
Proof. reflexivity. Qed.

Lemma split_not_nil (c : ascii) (s : string) : split c s <> [].
Proof.
  induction s as [|a r IH]; simpl.
  - discriminate.
  - destruct (Ascii.eqb a c); [discriminate|].
    destruct (split c r); discriminate.
Qed.

(** Joining the pieces of [s.split(c)] with [c] gives [s] back. *)
Lemma join_split (c : ascii) (s : string) :
  join (String c EmptyString) (split c s) = s.
Proof.
  induction s as [|a r IH]; [reflexivity|].
  cbn [split].
  destruct (split c r) as [|p rest] eqn:Hs;
    [exfalso; exact (split_not_nil c r Hs)|].
  destruct (Ascii.eqb a c) eqn:Hac.
  - apply Ascii.eqb_eq in Hac; subst a.
    rewrite join_cons_cons, IH. reflexivity.
  - destruct rest as [|q rest'].
    + rewrite join_singleton in *. now rewrite IH.
    + rewrite <- IH. reflexivity.
Qed.

(** ** utils.quote *)

Lemma quote_no_single_quote (s : string) :
  char_in squote s = false -> quote s = SQ ++ s ++ SQ.
Proof. intros H. unfold quote. now rewrite H. Qed.

Lemma quote_no_double_quote (s : string) :
  char_in squote s = true -> char_in dquote s = false ->
  quote s = DQ ++ s ++ DQ.
Proof. intros H1 H2. unfold quote. now rewrite H1, H2. Qed.

Lemma quote_both_quotes (s : string) :
  char_in squote s = true -> char_in dquote s = true ->
  quote s = "concat("
            ++ join ("," ++ SQ ++ DQ ++ SQ ++ ",")
                 (map (fun chunk => DQ ++ chunk ++ DQ) (split squote s))
            ++ ")".
Proof. intros H1 H2. unfold quote. now rewrite H1, H2. Qed.

(** The first two branches agree with the rule of the specification. *)
Lemma quote_agrees_without_both (s : string) :
  char_in squote s = false \/ char_in dquote s = false ->
  quote s = quote_spec s.
Proof.
  intros [H|H]; unfold quote, quote_spec.
  - now rewrite H.
  - rewrite H. now destruct (char_in squote s).
Qed.

Example quote_plain : quote "abc" = "'abc'".
Proof. reflexivity. Qed.

Example quote_apostrophe : quote "a'b" = DQ ++ "a'b" ++ DQ.
Proof. reflexivity. Qed.

Example quote_double_quote : quote ("a" ++ DQ ++ "b") = "'a" ++ DQ ++ "b'".
Proof. reflexivity. Qed.

Example re_escape_xsd_specials : re_escape_xsd "a.b-c\d" = "a\.b\-c\\d".
Proof. reflexivity. Qed.

Example compile_div_with_id :
  Path_compile (Path_where (Node_any (E "div")) (AttrOps_exists (Pred_attr "id" false)))
  = "//div[@id]".
Proof. reflexivity. Qed.

(** C1.  Write D for the double-quote character.  On the input a'bDc,
    which holds both quote characters, [quote] returns
    concat(DaD,'D',DbDcD): the pieces of the split on the single quote
    are double-quoted, but the literal put between them is a
    single-quoted double quote, not the double-quoted apostrophe of the
    specified rule, which gives concat(DaD,D'D,DbDcD).  The two results
    differ, and the pieces joined back through the character that the
    inserted literal denotes give aDbDc, not the input. *)
Theorem quote_mixed_quotes_glue :
  quote ("a'b" ++ DQ ++ "c")
    = "concat(" ++ DQ ++ "a" ++ DQ ++ "," ++ SQ ++ DQ ++ SQ ++ ","
      ++ DQ ++ "b" ++ DQ ++ "c" ++ DQ ++ ")"
  /\ quote_spec ("a'b" ++ DQ ++ "c")
    = "concat(" ++ DQ ++ "a" ++ DQ ++ "," ++ DQ ++ SQ ++ DQ ++ ","
      ++ DQ ++ "b" ++ DQ ++ "c" ++ DQ ++ ")"
  /\ quote ("a'b" ++ DQ ++ "c") <> quote_spec ("a'b" ++ DQ ++ "c")
  /\ join DQ (split squote ("a'b" ++ DQ ++ "c")) = "a" ++ DQ ++ "b" ++ DQ ++ "c"
  /\ join DQ (split squote ("a'b" ++ DQ ++ "c")) <> "a'b" ++ DQ ++ "c".
Proof.
  repeat split; try reflexivity; vm_compute; discriminate.
Qed.

(** ** core._SetBuilder *)

(** C2.  With no token [any_of] compiles to false(), [all_of] and
    [none_of] to true(); with at least one token [none_of] compiles to
    the text of [any_of] on the same tokens wrapped in not(...). *)
Theorem set_builder_identities (sb : _SetBuilder) :
  Pred_compile (any_of sb []) = "false()"
  /\ Pred_compile (all_of sb []) = "true()"
  /\ Pred_compile (none_of sb []) = "true()"
  /\ forall (t : string) (ts : list string),
       Pred_compile (none_of sb (t :: ts))
       = "not(" ++ Pred_compile (any_of sb (t :: ts)) ++ ")".
Proof.
  repeat split.
Qed.

(** ** core.Ops *)

Lemma in_comparators_existsb (op : string) :
  existsb (String.eqb op) comparators = true <-> In op comparators.
Proof.
  rewrite existsb_exists. split.
  - intros [x [Hin Heq]]. apply String.eqb_eq in Heq. now subst x.
  - intros Hin. exists op. split; [assumption | apply String.eqb_refl].
Qed.

Lemma not_in_comparators_existsb (op : string) :
  existsb (String.eqb op) comparators = false <-> ~ In op comparators.
Proof.
  rewrite <- in_comparators_existsb.
  destruct (existsb (String.eqb op) comparators); split; intros H;
    try reflexivity; try discriminate; try (intro; discriminate).
  exfalso; now apply H.
Qed.

(** C3.  [cmp] raises exactly when the operator is outside the six
    comparators; the error is then the ValueError "Invalid comparator",
    and for each of the six the call returns the predicate
    "<lhs> <op> <to_lit(value)>". *)
Theorem cmp_raises_iff_invalid_operator
    (T : Type) (self : Ops T) (op : string) (v : T) :
  (raises (Ops_cmp self op v) = true <-> ~ In op comparators)
  /\ (~ In op comparators ->
      Ops_cmp self op v = Raise (ValueError "Invalid comparator"))
  /\ (In op comparators ->
      Ops_cmp self op v
      = Return (mkPred (lhs self ++ " " ++ op ++ " " ++ to_lit self v))).
Proof.
  unfold Ops_cmp.
  destruct (existsb (String.eqb op) comparators) eqn:He; simpl.
  - apply in_comparators_existsb in He.
    repeat split; intros; try reflexivity; try discriminate; contradiction.
  - apply not_in_comparators_existsb in He.
    repeat split; intros; try reflexivity; try assumption; contradiction.
Qed.

Lemma cmp_raises_iff_invalid_operator_witness :
  In "<=" comparators
  /\ Ops_cmp (bool_expr "@a") "<=" true = Return (mkPred "@a <= true()")
  /\ ~ In "==" comparators
  /\ Ops_cmp (bool_expr "@a") "==" true = Raise (ValueError "Invalid comparator")
  /\ raises (Ops_cmp (bool_expr "@a") "==" true) = true.
Proof.
  assert (Hin : In "<=" comparators) by (simpl; tauto).
  assert (Hout : ~ In "==" comparators)
    by (simpl; intros [H|[H|[H|[H|[H|[H|H]]]]]]; try discriminate H; exact H).
  split; [exact Hin|].
  split; [exact (proj2 (proj2 (cmp_raises_iff_invalid_operator
                                 bool (bool_expr "@a") "<=" true)) Hin)|].
  split; [exact Hout|].
  split; [exact (proj1 (proj2 (cmp_raises_iff_invalid_operator
                                 bool (bool_expr "@a") "==" true)) Hout)|].
  exact (proj2 (proj1 (cmp_raises_iff_invalid_operator
                         bool (bool_expr "@a") "==" true)) Hout).
Defined.

(** ** core._AttrOps.has_name *)

(** C4.  [has_name] on [Pred.attr(n, case_insensitive=ci)] raises exactly
    when [n] is not the wildcard; the error is then a ValueError, and on
    the wildcard the call returns the attribute-name builder that carries
    the same [ci]. *)
Theorem has_name_raises_iff_not_wildcard (n : string) (ci : bool) :
  (raises (AttrOps_has_name (Pred_attr n ci)) = true <-> n <> "*")
  /\ (n <> "*" ->
      AttrOps_has_name (Pred_attr n ci)
      = Raise (ValueError "attr(name).has_name is only meaningful for attr('*')"))
  /\ (n = "*" ->
      AttrOps_has_name (Pred_attr n ci) = Return (mkAttrNameOps ci)
      /\ AttrNameOps_ci (mkAttrNameOps ci) = ci).
Proof.
  unfold AttrOps_has_name, Pred_attr; simpl.
  destruct (String.eqb n "*") eqn:He; simpl.
  - apply String.eqb_eq in He.
    repeat split; intros; try reflexivity; try discriminate; contradiction.
  - apply String.eqb_neq in He.
    repeat split; intros; try reflexivity; try assumption; contradiction.
Qed.

Lemma has_name_raises_iff_not_wildcard_witness :
  "class" <> "*"
  /\ raises (AttrOps_has_name (Pred_attr "class" true)) = true
  /\ AttrOps_has_name (Pred_attr "*" true) = Return (mkAttrNameOps true).
Proof.
  assert (Hne : "class" <> "*") by discriminate.
  split; [exact Hne|].
  split.
  - exact (proj2 (proj1 (has_name_raises_iff_not_wildcard "class" true)) Hne).
  - exact (proj1 (proj2 (proj2 (has_name_raises_iff_not_wildcard "*" true))
                    eq_refl)).
Defined.

(** ** core.attr_num *)

Lemma SFeqb_refl_not_nan (v : spec_float) :
  SFeqb v v = match v with S754_nan => false | _ => true end.
Proof.
  destruct v as [s|s| |s m e]; unfold SFeqb; simpl.
  - reflexivity.
  - now destruct s.
  - reflexivity.
  - rewrite Z.compare_refl.
    change (PosDef.Pos.compare_cont Eq m m) with (Pos.compare m m).
    rewrite Pos.compare_refl. now destruct s.
Qed.

Lemma SFeqb_infinity (v : spec_float) (s : bool) :
  SFeqb v (S754_infinity s)
  = match v with S754_infinity s' => Bool.eqb s' s | _ => false end.
Proof.
  destruct v as [s'|s'| |s' m e]; unfold SFeqb; simpl;
    try destruct s'; try destruct s; reflexivity.
Qed.

(** The literal of [attr_num] by the kind of the value. *)
Lemma attr_num_to_lit (float_str : spec_float -> string) (name : string)
    (v : spec_float) :
  to_lit (attr_num float_str name) v
  = match v with
    | S754_nan => "NaN"
    | S754_infinity false => "Infinity"
    | S754_infinity true => "-Infinity"
    | _ => float_str v
    end.
Proof.
  unfold attr_num; simpl.
  rewrite SFeqb_refl_not_nan.
  unfold float_inf, float_neg_inf. rewrite !SFeqb_infinity.
  destruct v as [s|s| |s m e]; simpl; try reflexivity.
  now destruct s.
Qed.

(** C5.  The equality predicate of [attr_num("x")] is number(@x) = NaN
    for a not-a-number, number(@x) = Infinity for positive infinity,
    number(@x) = -Infinity for negative infinity, and number(@x) =
    followed by [str(v)] for every other float, zeros included. *)
Theorem attr_num_eq_renders (float_str : spec_float -> string) (v : spec_float) :
  Ops_eq (attr_num float_str "x") v
  = Return (mkPred ("number(@x) = "
                    ++ match v with
                       | S754_nan => "NaN"
                       | S754_infinity false => "Infinity"
                       | S754_infinity true => "-Infinity"
                       | S754_zero _ | S754_finite _ _ _ => float_str v
                       end)).
Proof.
  unfold Ops_eq, Ops_cmp.
  change (existsb (String.eqb "=") comparators) with true. cbn [negb].
  rewrite attr_num_to_lit.
  destruct v as [s|s| |s m e]; reflexivity.
Qed.

(** ** examples/find_ad_classes.py *)

(** C6.  The ad-classification selector compiles, whatever [str.lower]
    does, to slash-slash-star followed by one bracket that holds the
    clauses contains(@class, 'k'), one for each of the nine keywords in
    the order of the list, joined by the word or: nine clauses and eight
    separators. *)
Theorem ad_class_selector_compiles (lower : string -> string) :
  Path_compile (ad_class_selector lower)
  = "//*["
    ++ join " or " (map (fun k => "contains(@class, '" ++ k ++ "')") ad_keywords)
    ++ "]"
  /\ List.length ad_keywords = 9
  /\ Path_compile (ad_class_selector lower)
     = "//*[contains(@class, 'ads') or contains(@class, 'ad') or contains(@class, 'advert') or contains(@class, 'advertisement') or contains(@class, 'sponsored') or contains(@class, 'promo') or contains(@class, 'affiliate') or contains(@class, 'tracking') or contains(@class, 'analytics')]"
  /\ count_substr "contains(@class, " (Path_compile (ad_class_selector lower)) = 9
  /\ count_substr "contains(" (Path_compile (ad_class_selector lower)) = 9
  /\ count_substr " or " (Path_compile (ad_class_selector lower)) = 8.
Proof.
  repeat split.
Qed.

(** ** core.Node.__or__ and core.Path.union *)

(** C7.  The union of two nodes compiles to the two tests joined by
    space, bar, space, with no parentheses; [Path.union] of no path
    compiles to false(), and of one or more paths to their texts, each in
    parentheses, joined by space, bar, space. *)
Theorem union_forms :
  (forall a b : Node,
     Path_compile (Node_or a b) = Node_test a ++ " | " ++ Node_test b)
  /\ Path_compile (Node_or (E "a") (E "b")) = "a | b"
  /\ Path_compile (Path_union []) = "false()"
  /\ (forall (p : Path) (ps : list Path),
        Path_compile (Path_union (p :: ps))
        = join " | " (map (fun q => "(" ++ Path_compile q ++ ")") (p :: ps)))
  /\ (forall p : Path,
        Path_compile (Path_union [p]) = "(" ++ Path_compile p ++ ")")
  /\ (forall (p q : Path) (ps : list Path),
        Path_compile (Path_union (p :: q :: ps))
        = ("(" ++ Path_compile p ++ ")") ++ " | "
          ++ Path_compile (Path_union (q :: ps))).
Proof.
  repeat split.
Qed.

(** ** utils.validate_xpath and core.Path.validate *)

Lemma validate_xpath_no_engine (env : Engines) (expr : string) :
  _elementpath_available env = false -> _lxml_available env = false ->
  validate_xpath env expr = Return tt.
Proof.
  unfold _elementpath_available, _lxml_available, validate_xpath.
  destruct (elementpath env); [discriminate|].
  destruct (lxml env); [discriminate|]. reflexivity.
Qed.

(** An accepted expression never raises, whichever engine is installed. *)
Lemma validate_xpath_accepts (env : Engines) (expr : string) :
  (forall engine, elementpath env = Some engine -> engine expr = None) ->
  (forall engine, lxml env = Some engine -> engine expr = None) ->
  validate_xpath env expr = Return tt.
Proof.
  intros H1 H2. unfold validate_xpath.
  destruct (elementpath env) as [parse|].
  - now rewrite (H1 parse eq_refl).
  - destruct (lxml env) as [xp|]; [|reflexivity].
    now rewrite (H2 xp eq_refl).
Qed.

(** C8.  With no engine installed [validate_xpath] and [Path.validate]
    return for every expression; a raise is always a SyntaxError that
    carries the message of an installed engine which rejected the
    expression (elementpath when installed, else lxml); and a path
    compiles and composes the same whether or not its validation
    raises. *)
Theorem validation_is_best_effort :
  (forall (env : Engines) (expr : string),
     _elementpath_available env = false -> _lxml_available env = false ->
     validate_xpath env expr = Return tt)
  /\ (forall (env : Engines) (p : Path),
        _elementpath_available env = false -> _lxml_available env = false ->
        Path_validate env p = Return tt)
  /\ (forall (env : Engines) (expr : string) (e : exn),
        validate_xpath env expr = Raise e ->
        exists (engine : string -> option string) (msg : string),
          engine expr = Some msg
          /\ ((elementpath env = Some engine
               /\ e = SyntaxError ("XPath (elementpath) syntax error: " ++ msg))
              \/ (elementpath env = None /\ lxml env = Some engine
                  /\ e = SyntaxError ("XPath (lxml) syntax error: " ++ msg))))
  /\ (forall (env : Engines) (p : Path) (pred : Pred) (e : exn),
        Path_validate env p = Raise e ->
        Path_compile p = Path_expr p
        /\ Path_compile (Path_where p pred)
           = Path_expr p ++ "[" ++ Pred_compile pred ++ "]").
Proof.
  split; [|split; [|split]].
  - intros env expr H1 H2. now apply validate_xpath_no_engine.
  - intros env p H1 H2. unfold Path_validate.
    now apply validate_xpath_no_engine.
  - intros env expr e. unfold validate_xpath.
    destruct (elementpath env) as [parse|] eqn:Hep.
    + destruct (parse expr) as [msg|] eqn:Hp; [|discriminate].
      intros H; injection H as <-.
      exists parse, msg. split; [assumption|]. left. now split.
    + destruct (lxml env) as [xp|] eqn:Hlx; [|discriminate].
      destruct (xp expr) as [msg|] eqn:Hp; [|discriminate].
      intros H; injection H as <-.
      exists xp, msg. split; [assumption|]. right. now repeat split.
  - intros env p pred e _. split; reflexivity.
Qed.

Lemma validation_is_best_effort_witness :
  validate_xpath (mkEngines None None) "//*[@id" = Return tt
  /\ Path_validate (mkEngines None None) (mkPath "//*[@id") = Return tt
  /\ (exists (engine : string -> option string) (msg : string),
        engine "//*[@id" = Some msg
        /\ ((elementpath (mkEngines None (Some (fun _ => Some "Invalid expression")))
             = Some engine
             /\ SyntaxError "XPath (lxml) syntax error: Invalid expression"
                = SyntaxError ("XPath (elementpath) syntax error: " ++ msg))
            \/ (elementpath (mkEngines None (Some (fun _ => Some "Invalid expression")))
                = None
                /\ lxml (mkEngines None (Some (fun _ => Some "Invalid expression")))
                   = Some engine
                /\ SyntaxError "XPath (lxml) syntax error: Invalid expression"
                   = SyntaxError ("XPath (lxml) syntax error: " ++ msg))))
  /\ Path_compile (Path_where (mkPath "//*[@id") (mkPred "@x"))
     = "//*[@id[@x]".
Proof.
  split; [|split; [|split]].
  - exact (proj1 validation_is_best_effort
             (mkEngines None None) "//*[@id" eq_refl eq_refl).
  - exact (proj1 (proj2 validation_is_best_effort)
             (mkEngines None None) (mkPath "//*[@id") eq_refl eq_refl).
  - exact (proj1 (proj2 (proj2 validation_is_best_effort))
             (mkEngines None (Some (fun _ => Some "Invalid expression")))
             "//*[@id"
             (SyntaxError "XPath (lxml) syntax error: Invalid expression")
             eq_refl).
  - exact (proj2 (proj2 (proj2 (proj2 validation_is_best_effort))
             (mkEngines None (Some (fun _ => Some "Invalid expression")))
             (mkPath "//*[@id") (mkPred "@x")
             (SyntaxError "XPath (lxml) syntax error: Invalid expression")
             eq_refl)).
Defined.

(** ** core._AttrOps.matches against the other views *)

(** C9.  With [case_insensitive=True] the per-token predicate of
    [matches] is matches(@name, quote(pattern)), with a comma and the
    quoted flags appended only for non-empty flags: the attribute is not
    wrapped in lower-case(...), no flag is added, and the builder equals
    the case-sensitive one.  The views [contains], [startswith] and
    [endswith] wrap the attribute in lower-case(...) and lower the token,
    and [contains_tokens] appends the flag 'i'. *)
Theorem matches_ignores_case_flag (lower : string -> string)
    (name flags pattern : string) :
  make_one (AttrOps_matches (Pred_attr name true) flags) pattern
  = "matches(@" ++ name ++ ", " ++ quote pattern
    ++ match flags with
       | EmptyString => EmptyString
       | String _ _ => ", " ++ quote flags
       end
    ++ ")"
  /\ make_one (AttrOps_matches (Pred_attr name true) EmptyString) pattern
     = "matches(@" ++ name ++ ", " ++ quote pattern ++ ")"
  /\ make_one (AttrOps_matches (Pred_attr name true) flags) pattern
     = make_one (AttrOps_matches (Pred_attr name false) flags) pattern
  /\ make_one (AttrOps_contains lower (Pred_attr name true)) pattern
     = "contains(" ++ ("lower-case(@" ++ name ++ ")") ++ ", "
       ++ quote (lower pattern) ++ ")"
  /\ make_one (AttrOps_startswith lower (Pred_attr name true)) pattern
     = "starts-with(" ++ ("lower-case(@" ++ name ++ ")") ++ ", "
       ++ quote (lower pattern) ++ ")"
  /\ make_one (AttrOps_endswith lower (Pred_attr name true)) pattern
     = "ends-with(" ++ ("lower-case(@" ++ name ++ ")") ++ ", "
       ++ quote (lower pattern) ++ ")"
  /\ make_one (AttrOps_contains_tokens (Pred_attr name true)) pattern
     = "matches(" ++ ("concat(' ', normalize-space(@" ++ name ++ "), ' ')")
       ++ ", " ++ quote ("\s" ++ re_escape_xsd pattern ++ "\s") ++ ", 'i'" ++ ")"
  /\ make_one (AttrOps_contains_tokens (Pred_attr name false)) pattern
     = "matches(" ++ ("concat(' ', normalize-space(@" ++ name ++ "), ' ')")
       ++ ", " ++ quote ("\s" ++ re_escape_xsd pattern ++ "\s") ++ ")".
Proof.
  repeat split; destruct flags; reflexivity.
Qed.

(** ** core._SetBuilder against core.Pred.union *)

(** C10.  For two or more tokens [any_of] and [all_of] compile to the
    per-token texts joined by the word or, respectively and, between
    single spaces, with nothing wrapped around a per-token text; the
    attribute-name builders therefore give a text that starts with the
    some-satisfies clause of the first name and goes on, after the word
    or, with that of the second, without parentheses, whereas
    [Pred.union] puts every operand in parentheses. *)
Theorem set_builder_joins_without_parentheses (lower : string -> string) :
  (forall (sb : _SetBuilder) (t1 t2 : string) (ts : list string),
     Pred_compile (any_of sb (t1 :: t2 :: ts))
     = join " or " (map (make_one sb) (t1 :: t2 :: ts))
     /\ Pred_compile (any_of sb (t1 :: t2 :: ts))
        = make_one sb t1 ++ " or " ++ Pred_compile (any_of sb (t2 :: ts))
     /\ Pred_compile (all_of sb (t1 :: t2 :: ts))
        = join " and " (map (make_one sb) (t1 :: t2 :: ts))
     /\ Pred_compile (all_of sb (t1 :: t2 :: ts))
        = make_one sb t1 ++ " and " ++ Pred_compile (all_of sb (t2 :: ts)))
  /\ (forall (sb : _SetBuilder) (t1 t2 : string),
        Pred_compile (any_of sb [t1; t2])
        = make_one sb t1 ++ " or " ++ make_one sb t2
        /\ Pred_compile (all_of sb [t1; t2])
           = make_one sb t1 ++ " and " ++ make_one sb t2)
  /\ (forall (ci : bool) (a b : string),
        let x := if ci then "lower-case(local-name($a))" else "local-name($a)" in
        let low := fun s : string => if ci then lower s else s in
        Pred_compile (any_of (AttrNameOps_equals lower (mkAttrNameOps ci)) [a; b])
        = ("some $a in @* satisfies " ++ x ++ " = " ++ quote (low a))
          ++ " or "
          ++ ("some $a in @* satisfies " ++ x ++ " = " ++ quote (low b))
        /\ Pred_compile (any_of (AttrNameOps_contains lower (mkAttrNameOps ci)) [a; b])
           = ("some $a in @* satisfies contains(" ++ x ++ ", " ++ quote (low a) ++ ")")
             ++ " or "
             ++ ("some $a in @* satisfies contains(" ++ x ++ ", " ++ quote (low b) ++ ")")
        /\ Pred_compile (any_of (AttrNameOps_startswith lower (mkAttrNameOps ci)) [a; b])
           = ("some $a in @* satisfies starts-with(" ++ x ++ ", " ++ quote (low a) ++ ")")
             ++ " or "
             ++ ("some $a in @* satisfies starts-with(" ++ x ++ ", " ++ quote (low b) ++ ")")
        /\ Pred_compile (any_of (AttrNameOps_endswith lower (mkAttrNameOps ci)) [a; b])
           = ("some $a in @* satisfies ends-with(" ++ x ++ ", " ++ quote (low a) ++ ")")
             ++ " or "
             ++ ("some $a in @* satisfies ends-with(" ++ x ++ ", " ++ quote (low b) ++ ")")
        /\ Pred_compile (any_of (AttrNameOps_matches (mkAttrNameOps ci) EmptyString) [a; b])
           = ("some $a in @* satisfies matches(" ++ x ++ ", " ++ quote a ++ ")")
             ++ " or "
             ++ ("some $a in @* satisfies matches(" ++ x ++ ", " ++ quote b ++ ")"))
  /\ Pred_compile
       (any_of (AttrNameOps_equals lower (mkAttrNameOps false)) ["id"; "class"])
     = "some $a in @* satisfies local-name($a) = 'id' or some $a in @* satisfies local-name($a) = 'class'"
  /\ (forall p q : Pred,
        Pred_compile (Pred_union [p; q])
        = ("(" ++ Pred_expr p ++ ")") ++ " or " ++ ("(" ++ Pred_expr q ++ ")"))
  /\ (forall (p q : Pred) (ps : list Pred),
        Pred_compile (Pred_union (p :: q :: ps))
        = join " or " (map (fun r => "(" ++ Pred_expr r ++ ")") (p :: q :: ps))).
Proof.
  split; [|split; [|split; [|split; [|split]]]].
  - intros sb t1 t2 ts. repeat split.
  - intros sb t1 t2. split; reflexivity.
  - intros ci a b x low. subst x low.
    destruct ci; repeat split; reflexivity.
  - reflexivity.
  - intros p q. reflexivity.
  - intros p q ps. reflexivity.
Qed.


(** * Further properties of the package *)

(** ** Strings: concatenation *)

Lemma str_append_assoc (a b c : string) : (a ++ b) ++ c = a ++ b ++ c.
Proof. induction a as [|x a IH]; simpl; [reflexivity | now rewrite IH]. Qed.

Lemma str_append_nil_r (a : string) : a ++ EmptyString = a.
Proof. induction a as [|x a IH]; simpl; [reflexivity | now rewrite IH]. Qed.

Lemma str_length_append (a b : string) :
  String.length (a ++ b) = String.length a + String.length b.
Proof. induction a as [|x a IH]; simpl; [reflexivity | now rewrite IH]. Qed.

Lemma str_append_cancel_l (t a b : string) : t ++ a = t ++ b -> a = b.
Proof.
  induction t as [|x t IH]; simpl; intros H; [assumption|].
  injection H as H. now apply IH.
Qed.

Lemma str_append_cancel_r (t a b : string) : a ++ t = b ++ t -> a = b.
Proof.
  revert b. induction a as [|x a IH]; intros [|y b] H; simpl in H.
  - reflexivity.
  - exfalso. apply (f_equal String.length) in H. simpl in H.
    rewrite str_length_append in H. lia.
  - exfalso. apply (f_equal String.length) in H. simpl in H.
    rewrite str_length_append in H. lia.
  - injection H as -> H. f_equal. now apply IH.
Qed.


Lemma join_app (sep : string) (x y : string) (l1 l2 : list string) :
  join sep ((x :: l1) ++ (y :: l2))%list
  = join sep (x :: l1) ++ sep ++ join sep (y :: l2).
Proof.
  revert x. induction l1 as [|z l1 IH]; intros x.
  - reflexivity.
  - change (join sep ((x :: z :: l1) ++ y :: l2)%list)
      with (x ++ sep ++ join sep ((z :: l1) ++ y :: l2)%list).
    rewrite IH, join_cons_cons.
    now rewrite !str_append_assoc.
Qed.

(** ** utils.re_escape_xsd *)

Lemma backslash_is_special (ch : ascii) :
  char_in ch specials = false -> Ascii.eqb ch "\" = false.
Proof.
  intros H. destruct (Ascii.eqb ch "\") eqn:E; [|reflexivity].
  apply Ascii.eqb_eq in E. subst ch. discriminate H.
Qed.

Lemma re_escape_xsd_length (s : string) :
  String.length (re_escape_xsd s) = String.length s + count_specials s.
Proof.
  induction s as [|ch r IH]; [reflexivity|].
  cbn [re_escape_xsd count_specials].
  destruct (char_in ch specials); cbn [String.length]; rewrite IH; lia.
Qed.

Lemma count_specials_zero (s : string) :
  count_specials s = 0 <-> no_specials s = true.
Proof.
  induction s as [|ch r IH]; [cbn; tauto|].
  cbn [count_specials no_specials].
  destruct (char_in ch specials); cbn [negb andb].
  - split; [lia | discriminate].
  - exact IH.
Qed.

Lemma count_specials_le (s : string) : count_specials s <= String.length s.
Proof.
  induction s as [|ch r IH]; [cbn; lia|].
  cbn [count_specials String.length].
  destruct (char_in ch specials); lia.
Qed.

Lemma re_escape_xsd_unescape (s : string) : unescape (re_escape_xsd s) = s.
Proof.
  induction s as [|ch r IH]; [reflexivity|].
  cbn [re_escape_xsd].
  destruct (char_in ch specials) eqn:E.
  - cbn [unescape]. rewrite Ascii.eqb_refl. now rewrite IH.
  - cbn [unescape]. rewrite (backslash_is_special ch E). now rewrite IH.
Qed.

(** X1.  Escaping a concatenation is concatenating the escapes: each
    character is escaped on its own, whatever stands around it. *)
Theorem re_escape_xsd_app (a b : string) :
  re_escape_xsd (a ++ b) = re_escape_xsd a ++ re_escape_xsd b.
Proof.
  induction a as [|ch r IH]; [reflexivity|].
  cbn [append re_escape_xsd].
  destruct (char_in ch specials); cbn [append]; now rewrite IH.
Qed.

Lemma re_escape_xsd_id_iff (s : string) :
  re_escape_xsd s = s <-> no_specials s = true.
Proof.
  split.
  - intros H. apply count_specials_zero.
    pose proof (re_escape_xsd_length s) as L. rewrite H in L. lia.
  - induction s as [|ch r IH]; [reflexivity|].
    cbn [re_escape_xsd no_specials].
    destruct (char_in ch specials); cbn [negb andb]; [discriminate|].
    intros H. now rewrite (IH H).
Qed.

(** X2.  [re_escape_xsd] returns its argument unchanged exactly when the
    argument holds none of the escaped characters. *)
Theorem re_escape_xsd_fixes_plain_text (s : string) :
  re_escape_xsd s = s <-> no_specials s = true.
Proof.
  exact (re_escape_xsd_id_iff s).
Qed.

Lemma re_escape_xsd_fixes_plain_text_witness :
  re_escape_xsd "btn-primary" <> "btn-primary"
  /\ re_escape_xsd "nav_item" = "nav_item".
Proof.
  split.
  - intros H.
    pose proof (proj1 (re_escape_xsd_fixes_plain_text "btn-primary") H) as N.
    discriminate N.
  - exact (proj2 (re_escape_xsd_fixes_plain_text "nav_item") eq_refl).
Defined.

(** X3.  Reading every backslash of the escaped text as standing for the
    character after it gives the literal back; so two different literals
    never get the same escaped text. *)
Theorem re_escape_xsd_round_trip :
  (forall s : string, unescape (re_escape_xsd s) = s)
  /\ (forall a b : string, re_escape_xsd a = re_escape_xsd b -> a = b).
Proof.
  split.
  - exact re_escape_xsd_unescape.
  - intros a b H.
    rewrite <- (re_escape_xsd_unescape a), <- (re_escape_xsd_unescape b).
    now rewrite H.
Qed.

Lemma re_escape_xsd_round_trip_witness :
  unescape (re_escape_xsd "a.b\c") = "a.b\c"
  /\ "x*" = "x*".
Proof.
  split.
  - exact (proj1 re_escape_xsd_round_trip "a.b\c").
  - exact (proj2 re_escape_xsd_round_trip "x*" "x*" eq_refl).
Defined.

(** X4.  The escaped text has one character more per escaped character
    of the literal: it is never shorter than the literal and never longer
    than twice the literal. *)
Theorem re_escape_xsd_length_bounds (s : string) :
  String.length (re_escape_xsd s) = String.length s + count_specials s
  /\ String.length s <= String.length (re_escape_xsd s)
  /\ String.length (re_escape_xsd s) <= 2 * String.length s.
Proof.
  pose proof (re_escape_xsd_length s). pose proof (count_specials_le s).
  lia.
Qed.

(** ** utils.quote: delimiters and injectivity *)

Lemma glue_apostrophes_head (r t : string) :
  glue_apostrophes r <> String squote t.
Proof.
  destruct r as [|ch r]; cbn [glue_apostrophes]; [discriminate|].
  destruct (Ascii.eqb ch squote) eqn:E.
  - cbn. discriminate.
  - intros H. injection H as H _. subst ch. discriminate E.
Qed.

Lemma glue_apostrophes_inj (s1 s2 : string) :
  glue_apostrophes s1 = glue_apostrophes s2 -> s1 = s2.
Proof.
  revert s2. induction s1 as [|c1 r1 IH]; intros [|c2 r2];
    cbn [glue_apostrophes].
  - reflexivity.
  - destruct (Ascii.eqb c2 squote); cbn; discriminate.
  - destruct (Ascii.eqb c1 squote); cbn; discriminate.
  - destruct (Ascii.eqb c1 squote) eqn:E1; destruct (Ascii.eqb c2 squote) eqn:E2.
    + apply Ascii.eqb_eq in E1, E2. subst c1 c2.
      cbn. intros H. injection H as H. f_equal. now apply IH.
    + cbn. intros H. exfalso. injection H as Hc H. subst c2.
      destruct r2 as [|x r2]; cbn [glue_apostrophes] in H; [discriminate H|].
      destruct (Ascii.eqb x squote); cbn in H; [discriminate H|].
      injection H as _ H. symmetry in H.
      exact (glue_apostrophes_head r2 _ H).
    + cbn. intros H. exfalso. injection H as Hc H. subst c1.
      destruct r1 as [|x r1]; cbn [glue_apostrophes] in H; [discriminate H|].
      destruct (Ascii.eqb x squote); cbn in H; [discriminate H|].
      injection H as _ H.
      exact (glue_apostrophes_head r1 _ H).
    + intros H. injection H as -> H. f_equal. now apply IH.
Qed.

(** The concat arguments of [quote] are the glued text between two
    double quotes. *)
Lemma join_chunks_glue (s : string) :
  join ("," ++ SQ ++ DQ ++ SQ ++ ",")
    (map (fun chunk => DQ ++ chunk ++ DQ) (split squote s))
  = DQ ++ glue_apostrophes s ++ DQ.
Proof.
  induction s as [|ch r IH]; [reflexivity|].
  cbn [split glue_apostrophes].
  destruct (split squote r) as [|p rest] eqn:Hs;
    [exfalso; exact (split_not_nil squote r Hs)|].
  destruct (Ascii.eqb ch squote).
  - cbn [map]. rewrite join_cons_cons. cbn [map] in IH. rewrite IH.
    cbn. reflexivity.
  - destruct rest as [|q rest]; cbn in IH |- *;
      injection IH as IH; now rewrite IH.
Qed.

(** X5.  When the text lacks one of the two quote characters, [quote]
    puts it unchanged between two copies of a quote character that does
    not occur in it, so the literal cannot end before its last
    character. *)
Theorem quote_delimiter_absent (s : string) :
  char_in squote s = false \/ char_in dquote s = false ->
  exists d : ascii,
    (d = squote \/ d = dquote)
    /\ char_in d s = false
    /\ quote s = String d (s ++ String d EmptyString).
Proof.
  intros H. destruct (char_in squote s) eqn:E1.
  - destruct H as [H|H]; [discriminate H|].
    exists dquote. repeat split; [now right | assumption |].
    unfold quote. now rewrite E1, H.
  - exists squote. repeat split; [now left | assumption |].
    unfold quote. now rewrite E1.
Qed.

Lemma quote_delimiter_absent_witness :
  exists d : ascii,
    (d = squote \/ d = dquote)
    /\ char_in d "it's" = false
    /\ quote "it's" = String d ("it's" ++ String d EmptyString).
Proof.
  exact (quote_delimiter_absent "it's" (or_intror eq_refl)).
Defined.

Lemma quote_inj (s1 s2 : string) : quote s1 = quote s2 -> s1 = s2.
Proof.
  unfold quote.
  rewrite !join_chunks_glue.
  destruct (char_in squote s1); destruct (char_in squote s2);
    destruct (char_in dquote s1); destruct (char_in dquote s2);
    cbn; intros H; try discriminate H.
  - injection H as H.
    apply str_append_cancel_r in H. apply str_append_cancel_r in H.
    now apply glue_apostrophes_inj.
  - injection H as H. now apply str_append_cancel_r in H.
  - injection H as H. now apply str_append_cancel_r in H.
  - injection H as H. now apply str_append_cancel_r in H.
  - injection H as H. now apply str_append_cancel_r in H.
  - injection H as H. now apply str_append_cancel_r in H.
Qed.

(** X6.  [quote] never gives the same literal for two different texts,
    whichever quote characters they hold. *)
Theorem quote_injective (s1 s2 : string) :
  quote s1 = quote s2 -> s1 = s2.
Proof.
  exact (quote_inj s1 s2).
Qed.

Lemma quote_injective_witness : "it's" = "it's".
Proof.
  exact (quote_injective "it's" "it's" eq_refl).
Defined.

(** ** core.Ops: wrappers, ranges and membership *)

(** X7.  The six comparison wrappers never raise: each returns the
    predicate made of the left-hand side, its own operator and the
    literal of the value. *)
Theorem ops_wrappers_never_raise (T : Type) (self : Ops T) (v : T) :
  Ops_eq self v = Return (mkPred (lhs self ++ " = " ++ to_lit self v))
  /\ Ops_ne self v = Return (mkPred (lhs self ++ " != " ++ to_lit self v))
  /\ Ops_lt self v = Return (mkPred (lhs self ++ " < " ++ to_lit self v))
  /\ Ops_le self v = Return (mkPred (lhs self ++ " <= " ++ to_lit self v))
  /\ Ops_gt self v = Return (mkPred (lhs self ++ " > " ++ to_lit self v))
  /\ Ops_ge self v = Return (mkPred (lhs self ++ " >= " ++ to_lit self v)).
Proof.
  repeat split.
Qed.

(** X8.  [between] is the conjunction, as [Pred.__and__] builds it, of
    the two comparisons that [cmp] returns for the bounds: greater-or-
    equal and less-or-equal for inclusive bounds, the strict operators
    otherwise. *)
Theorem between_is_conjunction_of_cmp
    (T : Type) (self : Ops T) (lo hi : T) (incl_lo incl_hi : bool) :
  exists a b : Pred,
    Ops_cmp self (if incl_lo then ">=" else ">") lo = Return a
    /\ Ops_cmp self (if incl_hi then "<=" else "<") hi = Return b
    /\ Ops_between self lo hi (incl_lo, incl_hi) = Pred_and a b.
Proof.
  destruct incl_lo, incl_hi;
    (eexists; eexists; split; [reflexivity|]; split; [reflexivity|]);
    unfold Ops_between, Pred_and; cbn [fst snd Pred_expr]; f_equal;
    now rewrite !str_append_assoc.
Qed.

(** X9.  [in_] of no value is false() and [not_in] of no value is
    not(false()); with values, [in_] is the left-hand side, an equals
    sign and the parenthesised, comma-separated literals, also for a
    single value, and [not_in] is always [in_] wrapped in not(...). *)
Theorem in_and_not_in_forms (T : Type) (self : Ops T) :
  Pred_compile (Ops_in_ self []) = "false()"
  /\ Pred_compile (Ops_not_in self []) = "not(false())"
  /\ (forall (v : T) (vs : list T),
        Pred_compile (Ops_in_ self (v :: vs))
        = lhs self ++ " = (" ++ join ", " (map (to_lit self) (v :: vs)) ++ ")")
  /\ (forall v : T,
        Pred_compile (Ops_in_ self [v])
        = lhs self ++ " = (" ++ to_lit self v ++ ")")
  /\ (forall vs : list T,
        Pred_compile (Ops_not_in self vs)
        = "not(" ++ Pred_compile (Ops_in_ self vs) ++ ")").
Proof.
  repeat split.
Qed.

(** ** core.Path: positions and growth *)



(** ** core._SetBuilder over split token lists *)

(** X12.  For one token [any_of] and [all_of] both give the per-token
    text itself; for a token list cut in two non-empty parts, [any_of]
    of the whole is [any_of] of the parts joined by the word or, and
    [all_of] of the whole is [all_of] of the parts joined by the word
    and. *)
Theorem set_builder_splits_over_append
    (sb : _SetBuilder) (a b : string) (l1 l2 : list string) :
  Pred_compile (any_of sb [a]) = make_one sb a
  /\ Pred_compile (all_of sb [a]) = make_one sb a
  /\ Pred_compile (none_of sb [a]) = "not(" ++ make_one sb a ++ ")"
  /\ Pred_compile (any_of sb ((a :: l1) ++ (b :: l2))%list)
     = Pred_compile (any_of sb (a :: l1)) ++ " or "
       ++ Pred_compile (any_of sb (b :: l2))
  /\ Pred_compile (all_of sb ((a :: l1) ++ (b :: l2))%list)
     = Pred_compile (all_of sb (a :: l1)) ++ " and "
       ++ Pred_compile (all_of sb (b :: l2)).
Proof.
  repeat split.
  - cbn [any_of app Pred_compile Pred_expr].
    change (a :: (l1 ++ b :: l2)%list) with ((a :: l1) ++ b :: l2)%list.
    rewrite map_app. exact (join_app _ _ _ _ _).
  - cbn [all_of app Pred_compile Pred_expr].
    change (a :: (l1 ++ b :: l2)%list) with ((a :: l1) ++ b :: l2)%list.
    rewrite map_app. exact (join_app _ _ _ _ _).
Qed.

(** ** core.Pred.union *)

(** X13.  [Pred.union] of two predicates is the predicate that the
    operator [|] builds from them; of one predicate it is that predicate
    in parentheses, not the predicate itself. *)
Theorem pred_union_of_two_is_or (p q : Pred) :
  Pred_union [p; q] = Pred_or p q
  /\ Pred_compile (Pred_union [p]) = "(" ++ Pred_expr p ++ ")"
  /\ Pred_compile (Pred_union [p]) <> Pred_compile p.
Proof.
  split; [|split].
  - unfold Pred_union, Pred_or, Pred_compile. cbn [map join]. f_equal.
    now rewrite !str_append_assoc.
  - reflexivity.
  - cbn. intros H. apply (f_equal String.length) in H.
    cbn [String.length] in H. rewrite str_length_append in H.
    cbn [String.length] in H. lia.
Qed.

(** ** utils.validate_xpath: order of the engines *)

(** X14.  When elementpath is installed its verdict alone decides: the
    result is the same whether lxml is installed or not and whatever
    lxml would say, a rejection raises the SyntaxError that carries the
    elementpath message, and lxml decides only when elementpath is
    absent. *)
Theorem elementpath_has_priority
    (parse : string -> option string)
    (lx lx' : option (string -> option string)) (expr : string) :
  validate_xpath (mkEngines (Some parse) lx) expr
  = validate_xpath (mkEngines (Some parse) lx') expr
  /\ (parse expr = None ->
      validate_xpath (mkEngines (Some parse) lx) expr = Return tt)
  /\ (forall msg : string, parse expr = Some msg ->
      validate_xpath (mkEngines (Some parse) lx) expr
      = Raise (SyntaxError ("XPath (elementpath) syntax error: " ++ msg)))
  /\ (forall xp : string -> option string,
      validate_xpath (mkEngines None (Some xp)) expr
      = match xp expr with
        | None => Return tt
        | Some msg => Raise (SyntaxError ("XPath (lxml) syntax error: " ++ msg))
        end).
Proof.
  unfold validate_xpath; cbn [elementpath lxml].
  repeat split.
  - intros H. now rewrite H.
  - intros msg H. now rewrite H.
Qed.

Lemma elementpath_has_priority_witness :
  validate_xpath
    (mkEngines (Some (fun _ => None)) (Some (fun _ => Some "Invalid expression")))
    "some $a in @* satisfies $a" = Return tt
  /\ validate_xpath
       (mkEngines (Some (fun _ => Some "unexpected end")) (Some (fun _ => None)))
       "//a[" = Raise (SyntaxError "XPath (elementpath) syntax error: unexpected end").
Proof.
  split.
  - exact (proj1 (proj2 (elementpath_has_priority
                           (fun _ => None) (Some (fun _ => Some "Invalid expression"))
                           None "some $a in @* satisfies $a")) eq_refl).
  - exact (proj1 (proj2 (proj2 (elementpath_has_priority
                           (fun _ => Some "unexpected end") (Some (fun _ => None))
                           None "//a[")))
             "unexpected end" eq_refl).
Defined.

(** ** core.Pred.attr_has_token against core._AttrOps.contains_tokens *)

(** X15.  [Pred.attr_has_token(attr, token, ci)] is the predicate that
    [Pred.attr(attr, ci).contains_tokens.any_of(token)] builds exactly
    when the token holds no character that [re_escape_xsd] escapes: the
    static constructor puts the token into the pattern as it is. *)
Theorem attr_has_token_agrees_iff_plain (attr token : string) (ci : bool) :
  Pred_attr_has_token attr token ci
  = any_of (AttrOps_contains_tokens (Pred_attr attr ci)) [token]
  <-> no_specials token = true.
Proof.
  unfold Pred_attr_has_token, any_of, AttrOps_contains_tokens, Pred_attr.
  cbn [make_one map join AttrOps_name AttrOps_ci].
  split.
  - intros H. injection H as H.
    apply str_append_cancel_l in H. injection H as H.
    assert (Hq : quote ("\s" ++ token ++ "\s")
                 = quote ("\s" ++ re_escape_xsd token ++ "\s")).
    { destruct ci; cbn [truthy] in H;
        now apply str_append_cancel_r in H. }
    apply quote_inj in Hq. injection Hq as Hq.
    apply str_append_cancel_r in Hq.
    apply re_escape_xsd_id_iff. now symmetry.
  - intros H. apply re_escape_xsd_id_iff in H. rewrite H.
    destruct ci; reflexivity.
Qed.

Lemma attr_has_token_agrees_iff_plain_witness :
  Pred_attr_has_token "class" "active" true
  = any_of (AttrOps_contains_tokens (Pred_attr "class" true)) ["active"]
  /\ Pred_attr_has_token "class" "col.6" false
     <> any_of (AttrOps_contains_tokens (Pred_attr "class" false)) ["col.6"].
Proof.
  split.
  - exact (proj2 (attr_has_token_agrees_iff_plain "class" "active" true) eq_refl).
  - intros H.
    pose proof (proj1 (attr_has_token_agrees_iff_plain "class" "col.6" false) H) as N.
    discriminate N.
Defined.

(** ** core._AttrNameOps: direct methods against the equals builder *)

(** X16.  On the attribute-name builder [any_of] and [none_of] are the
    Set Builder's over [equals] for every list of names, and all three
    agree with it on the empty list; [all_of] of one or more names is
    the single every-satisfies text over the quoted names and never the
    Set Builder's conjunction. *)
Theorem name_builder_direct_methods
    (lower : string -> string) (self : _AttrNameOps) :
  (forall names : list string,
     AttrNameOps_any_of lower self names
     = any_of (AttrNameOps_equals lower self) names)
  /\ (forall names : list string,
        AttrNameOps_none_of lower self names
        = none_of (AttrNameOps_equals lower self) names)
  /\ AttrNameOps_all_of lower self [] = all_of (AttrNameOps_equals lower self) []
  /\ (forall (n : string) (ns : list string),
        Pred_compile (AttrNameOps_all_of lower self (n :: ns))
        = "every $n in ("
          ++ join ", "
               (map quote
                  (map (fun m => if AttrNameOps_ci self then lower m else m)
                     (n :: ns)))
          ++ ") satisfies some $a in @* satisfies "
          ++ (if AttrNameOps_ci self then "lower-case(local-name($a))"
              else "local-name($a)")
          ++ " = $n")
  /\ (forall (n : string) (ns : list string),
        Pred_compile (AttrNameOps_all_of lower self (n :: ns))
        <> Pred_compile (all_of (AttrNameOps_equals lower self) (n :: ns))).
Proof.
  split; [|split; [|split; [|split]]].
  - reflexivity.
  - intros [|n ns]; reflexivity.
  - reflexivity.
  - intros n ns. unfold AttrNameOps_all_of, _seq_literal_strs.
    cbn [Pred_compile Pred_expr]. now rewrite !str_append_assoc.
  - intros n ns. destruct ns as [|m ns]; cbn; discriminate.
Qed.

(** ** core.attr_str: which values share a predicate *)

(** X17.  Two values get the same equality predicate from [attr_str]
    exactly when they are equal, for the case-sensitive builder, and
    exactly when [str.lower] sends them to the same text, for the
    case-insensitive one. *)
Theorem attr_str_eq_identifies_values
    (lower : string -> string) (name : string) (ci : bool) (v w : string) :
  Ops_eq (attr_str lower name ci) v = Ops_eq (attr_str lower name ci) w
  <-> (if ci then lower v = lower w else v = w).
Proof.
  unfold Ops_eq, Ops_cmp.
  change (existsb (String.eqb "=") comparators) with true. cbn [negb].
  unfold attr_str; cbn [lhs to_lit].
  split.
  - intros H. injection H as H.
    apply str_append_cancel_l in H. injection H as H.
    apply quote_inj in H. destruct ci; assumption.
  - intros H. destruct ci; now rewrite H.
Qed.

Lemma attr_str_eq_identifies_values_witness :
  Ops_eq (attr_str (fun s => s) "id" false) "main"
  = Ops_eq (attr_str (fun s => s) "id" false) "main"
  /\ Ops_eq (attr_str (fun _ => "main") "id" true) "Main"
     = Ops_eq (attr_str (fun _ => "main") "id" true) "MAIN".
Proof.
  split.
  - exact (proj2 (attr_str_eq_identifies_values
                    (fun s => s) "id" false "main" "main") eq_refl).
  - exact (proj2 (attr_str_eq_identifies_values
                    (fun _ => "main") "id" true "Main" "MAIN") eq_refl).
Defined.

(** ** Parentheses through the combinators *)

Lemma paren_depth_app (a b : string) (d : nat) :
  paren_depth d (a ++ b)
  = match paren_depth d a with
    | Some d' => paren_depth d' b
    | None => None
    end.
Proof.
  revert d. induction a as [|ch r IH]; intros d; [reflexivity|].
  cbn [append paren_depth].
  destruct (Ascii.eqb ch "("); [apply IH|].
  destruct (Ascii.eqb ch ")"); [|apply IH].
  destruct d; [reflexivity | apply IH].
Qed.

Lemma paren_depth_shift (k : nat) (s : string) (d d' : nat) :
  paren_depth d s = Some d' -> paren_depth (d + k) s = Some (d' + k).
Proof.
  revert d. induction s as [|ch r IH]; intros d; cbn [paren_depth].
  - intros H. injection H as <-. reflexivity.
  - destruct (Ascii.eqb ch "("); [exact (IH (S d))|].
    destruct (Ascii.eqb ch ")"); [|exact (IH d)].
    destruct d as [|d0]; [discriminate|]. exact (IH d0).
Qed.

Lemma balanced_app (a b : string) :
  balanced a -> balanced b -> balanced (a ++ b).
Proof.
  unfold balanced. intros Ha Hb. now rewrite paren_depth_app, Ha.
Qed.

Lemma balanced_parens (a : string) : balanced a -> balanced ("(" ++ a ++ ")").
Proof.
  unfold balanced. intros Ha.
  change (paren_depth 0 ("(" ++ a ++ ")")) with (paren_depth 1 (a ++ ")")).
  rewrite paren_depth_app.
  pose proof (paren_depth_shift 1 a 0 0 Ha) as H1. cbn [Nat.add] in H1.
  now rewrite H1.
Qed.

Lemma balanced_join (sep : string) (parts : list string) :
  balanced sep -> Forall balanced parts -> balanced (join sep parts).
Proof.
  intros Hs Hp. induction Hp as [|x l Hx Hl IH]; [reflexivity|].
  destruct l as [|y l]; [exact Hx|].
  rewrite join_cons_cons.
  apply balanced_app; [exact Hx|]. apply balanced_app; [exact Hs | exact IH].
Qed.

Lemma balanced_not (a : string) : balanced a -> balanced ("not(" ++ a ++ ")").
Proof.
  intros Ha. change ("not(" ++ a ++ ")") with ("not" ++ "(" ++ a ++ ")").
  apply balanced_app; [reflexivity | now apply balanced_parens].
Qed.

(** X18.  The combinators keep parentheses paired: when every operand
    has each parenthesis matched, so has the result of [and], [or],
    [neg] and [Pred.union]; no operand can close a parenthesis that a
    combinator opened. *)
Theorem pred_combinators_keep_balance :
  (forall p q : Pred,
     balanced (Pred_expr p) -> balanced (Pred_expr q) ->
     balanced (Pred_expr (Pred_and p q)) /\ balanced (Pred_expr (Pred_or p q)))
  /\ (forall p : Pred,
        balanced (Pred_expr p) -> balanced (Pred_expr (Pred_neg p)))
  /\ (forall preds : list Pred,
        Forall (fun r => balanced (Pred_expr r)) preds ->
        balanced (Pred_expr (Pred_union preds))).
Proof.
  split; [|split].
  - intros p q Hp Hq. split.
    + assert (E : Pred_expr (Pred_and p q)
                  = ("(" ++ Pred_expr p ++ ")") ++ " and " ++ "(" ++ Pred_expr q ++ ")")
        by (cbn [Pred_and Pred_expr]; now rewrite !str_append_assoc).
      rewrite E.
      apply balanced_app; [now apply balanced_parens|].
      apply balanced_app; [reflexivity | now apply balanced_parens].
    + assert (E : Pred_expr (Pred_or p q)
                  = ("(" ++ Pred_expr p ++ ")") ++ " or " ++ "(" ++ Pred_expr q ++ ")")
        by (cbn [Pred_or Pred_expr]; now rewrite !str_append_assoc).
      rewrite E.
      apply balanced_app; [now apply balanced_parens|].
      apply balanced_app; [reflexivity | now apply balanced_parens].
  - intros p Hp. now apply balanced_not.
  - intros preds H. destruct preds as [|r preds]; [reflexivity|].
    change (Pred_expr (Pred_union (r :: preds)))
      with (join " or " (map (fun p => "(" ++ Pred_compile p ++ ")") (r :: preds))).
    apply balanced_join; [reflexivity|].
    apply Forall_map. revert H. apply Forall_impl.
    intros a Ha. now apply balanced_parens.
Qed.

Lemma pred_combinators_keep_balance_witness :
  balanced (Pred_expr (Pred_and (mkPred "@a") (mkPred "contains(@b, 'x')")))
  /\ balanced (Pred_expr (Pred_neg (mkPred "contains(@b, 'x')")))
  /\ balanced (Pred_expr (Pred_union [mkPred "@a"; mkPred "not(@b)"])).
Proof.
  split; [|split].
  - exact (proj1 (proj1 pred_combinators_keep_balance
                    (mkPred "@a") (mkPred "contains(@b, 'x')") eq_refl eq_refl)).
  - exact (proj1 (proj2 pred_combinators_keep_balance)
             (mkPred "contains(@b, 'x')") eq_refl).
  - apply (proj2 (proj2 pred_combinators_keep_balance)).
    repeat constructor.
Defined.

(** X19.  The Set Builder keeps parentheses paired: when the per-token
    text of every given token has each parenthesis matched, so have the
    results of [any_of], [all_of] and [none_of]. *)
Theorem set_builder_keeps_balance (sb : _SetBuilder) (tokens : list string) :
  (forall t : string, In t tokens -> balanced (make_one sb t)) ->
  balanced (Pred_expr (any_of sb tokens))
  /\ balanced (Pred_expr (all_of sb tokens))
  /\ balanced (Pred_expr (none_of sb tokens)).
Proof.
  intros H.
  assert (Hparts : Forall balanced (map (make_one sb) tokens)).
  { apply Forall_map. apply Forall_forall. exact H. }
  destruct tokens as [|t ts]; [repeat split|].
  assert (Hany : balanced (Pred_expr (any_of sb (t :: ts)))).
  { apply (balanced_join " or "); [reflexivity | exact Hparts]. }
  split; [exact Hany|]. split.
  - apply (balanced_join " and "); [reflexivity | exact Hparts].
  - now apply balanced_not.
Qed.

Lemma set_builder_keeps_balance_witness :
  balanced
    (Pred_expr (none_of (AttrOps_contains (fun s => s) (Pred_attr "class" true))
                  ["ad"; "promo"])).
Proof.
  apply (set_builder_keeps_balance
           (AttrOps_contains (fun s => s) (Pred_attr "class" true))
           ["ad"; "promo"]).
  intros t [<-|[<-|[]]]; reflexivity.
Defined.

(** ** examples/find_id_str.py and examples/find_empty_svgs.py *)

(** X20.  The framework-id selector compiles, whatever [str.lower] does,
    to slash-slash-star followed by one bracket that holds the clauses
    starts-with(@id, 'p'), one for each of the seven prefixes in the
    order of the list, joined by the word or. *)
Theorem id_str_selector_compiles (lower : string -> string) :
  Path_compile (id_str_selector lower)
  = "//*["
    ++ join " or " (map (fun k => "starts-with(@id, '" ++ k ++ "')") id_prefixes)
    ++ "]"
  /\ List.length id_prefixes = 7
  /\ Path_compile (id_str_selector lower)
     = "//*[starts-with(@id, 'vue-') or starts-with(@id, 'angular-') or starts-with(@id, 'svelte-') or starts-with(@id, 'lit-') or starts-with(@id, 'astro-') or starts-with(@id, 'preact-') or starts-with(@id, 'solid-')]"
  /\ count_substr "starts-with(" (Path_compile (id_str_selector lower)) = 7
  /\ count_substr " or " (Path_compile (id_str_selector lower)) = 6.
Proof.
  repeat split.
Qed.

(** X21.  Building the empty-SVG selector raises nothing and gives the
    path over svg whose filter nests the four tests to the left: the
    width test or the height test, that or the aria-hidden test, that or
    the missing role. *)
Theorem empty_svg_selector_compiles (lower : string -> string) :
  empty_svg_selector lower
  = Return (mkPath "//svg[(((@width = '0') or (@height = '0')) or (@aria-hidden = 'true')) or (not(@role))]")
  /\ (forall w h a : Pred,
        Ops_eq (AttrOps_as_str lower (Pred_attr "width" false)) "0" = Return w ->
        Ops_eq (AttrOps_as_str lower (Pred_attr "height" false)) "0" = Return h ->
        Ops_eq (AttrOps_as_str lower (Pred_attr "aria-hidden" false)) "true" = Return a ->
        empty_svg_selector lower
        = Return (Path_where (Node_any (E "svg"))
                    (Pred_or (Pred_or (Pred_or w h) a)
                       (AttrOps_missing (Pred_attr "role" false))))).
Proof.
  split; [reflexivity|].
  intros w h a Hw Ha Hh. unfold empty_svg_selector.
  now rewrite Hw, Ha, Hh.
Qed.

Lemma empty_svg_selector_compiles_witness :
  empty_svg_selector (fun s => s)
  = Return (Path_where (Node_any (E "svg"))
              (Pred_or (Pred_or (Pred_or (mkPred "@width = '0'") (mkPred "@height = '0'"))
                          (mkPred "@aria-hidden = 'true'"))
                 (AttrOps_missing (Pred_attr "role" false)))).
Proof.
  exact (proj2 (empty_svg_selector_compiles (fun s => s))
           (mkPred "@width = '0'") (mkPred "@height = '0'")
           (mkPred "@aria-hidden = 'true'") eq_refl eq_refl eq_refl).
Defined.
